(** * Payload functions of the TTN handler: core/handler/convert_fields_custom.go

    Shallow embedding of the uplink functions (Decode, Convert, Validate and
    the three-result Decode that chains them) and of the downlink functions
    (Encode and its three-result wrapper).

    - Go's dynamic [interface{}] values are the inductive [value]; a Go map
      [map[string]interface{}] is [gomap], [None] being the nil map.
    - A Go [float32]/[float64] is a [spec_float] (IEEE 754 binary32/binary64
      from the Standard Library's SpecFloat), with prec/emax 24/128 and
      53/1024.
    - The JavaScript runtime behind [functions.RunCode] is external: it is an
      oracle [rt], and every call made to it is recorded in a trace, so that
      the order of the calls and their arguments can be observed. *)

From Stdlib Require Import ZArith List String Ascii Bool Lia.
From Stdlib Require Import SpecFloat.
Import ListNotations.
Set Warnings "-register-all".
Open Scope string_scope.
Open Scope Z_scope.

(** ** Go values *)

Inductive value : Type :=
| VUint8 (n : Z)            (* byte *)
| VInt (n : Z)              (* int, 64 bits *)
| VInt8 (n : Z)
| VInt16 (n : Z)
| VUint16 (n : Z)
| VInt32 (n : Z)
| VUint32 (n : Z)
| VInt64 (n : Z)
| VUint64 (n : Z)
| VUint (n : Z)             (* uint, 64 bits *)
| VFloat32 (f : spec_float)
| VFloat64 (f : spec_float)
| VString (s : string)
| VBool (b : bool)
| VNil
| VSlice (xs : list value)  (* any Go slice, seen through reflect *)
| VMap (m : option (list (string * value))).

(** [map[string]interface{}]; [None] is the nil map. *)
Definition gomap : Type := option (list (string * value)).

(** Go [error]; [None] is the nil error. *)
Inductive error : Type :=
| ErrInvalidArgument (name reason : string)   (* errors.NewErrInvalidArgument *)
| ErrRuntime (name msg : string).             (* errors raised by RunCode *)

(** An [otto.Value] as returned by the runtime. [Export] of an object gives a
    Go value and an error. *)
Inductive js_value : Type :=
| JSObject (exported : value) (export_err : option error)
| JSBoolean (b : bool)
| JSPrimitive.   (* number, string, null, undefined *)

Definition IsObject (v : js_value) : bool :=
  match v with JSObject _ _ => true | _ => false end.

Definition IsBoolean (v : js_value) : bool :=
  match v with JSBoolean _ => true | _ => false end.

Definition Export (v : js_value) : value * option error :=
  match v with
  | JSObject x e => (x, e)
  | JSBoolean b => (VBool b, None)
  | JSPrimitive => (VNil, None)
  end.

Definition ToBoolean (v : js_value) : bool * option error :=
  match v with JSBoolean b => (b, None) | _ => (false, None) end.

(** ** time.Duration (nanoseconds) *)

Definition Millisecond : Z := 1000000.

(** [var timeOut = 100 * time.Millisecond]; the package never assigns it. *)
Definition timeOut : Z := 100 * Millisecond.

(** ** Code templates built with fmt.Sprintf *)

Definition nl : string := String (ascii_of_nat 10) EmptyString.
Definition tab : string := String (ascii_of_nat 9) EmptyString.

Definition template (script call : string) : string :=
  nl ++ tab ++ tab ++ script ++ ";" ++ nl ++ tab ++ tab ++ call ++ nl ++ tab.

(** ** Calls to the runtime, recorded in a trace *)

Definition env : Type := list (string * value).

Record invocation : Type := mkInvocation {
  inv_name : string;
  inv_code : string;
  inv_env : env;
  inv_timeout : Z
}.

(** Computations that call the runtime: they thread the trace of calls. *)
Definition M (A : Type) : Type := list invocation -> A * list invocation.

Definition ret {A} (a : A) : M A := fun tr => (a, tr).
Definition bind {A B} (m : M A) (k : A -> M B) : M B :=
  fun tr => let '(a, tr') := m tr in k a tr'.

Notation "x <- m ;; k" := (bind m (fun x => k))
  (at level 61, m at next level, right associativity).
Notation "' p <- m ;; k" := (bind m (fun x => match x with p => k end))
  (at level 61, p pattern, m at next level, right associativity).

(** The runtime: name, code, environment, timeout -> (value, error). *)
Definition runtime : Type := string -> string -> env -> Z -> js_value * option error.

(** [functions.RunCode(name, code, env, timeout, logger)]; the logger only
    receives the script's console output and is left out. *)
Definition RunCode (rt : runtime) (name code : string) (e : env) (timeout : Z)
  : M (js_value * option error) :=
  fun tr => (rt name code e timeout, app tr [mkInvocation name code e timeout]).

(** ** Uplink functions *)

Record CustomUplinkFunctions : Type := mkUplink {
  Decoder : string;
  Converter : string;
  Validator : string
}.

(** The environments and code of the four RunCode calls. *)
Definition payload_env (payload : list Z) (port : Z) : env :=
  [("payload", VSlice (map VUint8 payload)); ("port", VUint8 port)].
Definition fields_env (fields : gomap) (port : Z) : env :=
  [("fields", VMap fields); ("port", VUint8 port)].
Definition decoder_code (f : CustomUplinkFunctions) : string :=
  template (Decoder f) "Decoder(payload.slice(0), port);".
Definition converter_code (f : CustomUplinkFunctions) : string :=
  template (Converter f) "Converter(fields, port)".
Definition validator_code (f : CustomUplinkFunctions) : string :=
  template (Validator f) "Validator(fields, port)".

Section Uplink.
Variable rt : runtime.
Variable f : CustomUplinkFunctions.

(** [func (f *UplinkFunctions) Decode(payload []byte, port uint8) (map[string]interface{}, error)] *)
Definition Decode (payload : list Z) (port : Z) : M (gomap * option error) :=
  if String.eqb (Decoder f) "" then ret (None, None) else
  '(value, err) <- RunCode rt "Decoder" (decoder_code f) (payload_env payload port) timeOut ;;
  match err with
  | Some err => ret (None, Some err)
  | None =>
    if negb (IsObject value) then
      ret (None, Some (ErrInvalidArgument "Decoder" "does not return an object"))
    else
      let (v, _) := Export value in
      match v with
      | VMap m => ret (m, None)
      | _ => ret (None, Some (ErrInvalidArgument "Decoder" "does not return an object"))
      end
  end.

(** [func (f *UplinkFunctions) Convert(fields map[string]interface{}, port uint8) (map[string]interface{}, error)] *)
Definition Convert (fields : gomap) (port : Z) : M (gomap * option error) :=
  if String.eqb (Converter f) "" then ret (fields, None) else
  '(value, err) <- RunCode rt "Converter" (converter_code f) (fields_env fields port) timeOut ;;
  match err with
  | Some err => ret (None, Some err)
  | None =>
    if negb (IsObject value) then
      ret (None, Some (ErrInvalidArgument "Converter" "does not return an object"))
    else
      let (v, _) := Export value in
      match v with
      | VMap m => ret (m, None)
      | _ => ret (None, Some (ErrInvalidArgument "Converter" "does not return an object"))
      end
  end.

(** [func (f *UplinkFunctions) Validate(fields map[string]interface{}, port uint8) (bool, error)] *)
Definition Validate (fields : gomap) (port : Z) : M (bool * option error) :=
  if String.eqb (Validator f) "" then ret (true, None) else
  '(value, err) <- RunCode rt "Validator" (validator_code f) (fields_env fields port) timeOut ;;
  match err with
  | Some err => ret (false, Some err)
  | None =>
    if negb (IsBoolean value) then
      ret (false, Some (ErrInvalidArgument "Validator" "does not return a boolean"))
    else ret (ToBoolean value)
  end.

(** The three-result [Decode] (source lines 131-144): decode, convert, validate. *)
Definition DecodeUplink (payload : list Z) (port : Z) : M (gomap * bool * option error) :=
  '(decoded, err) <- Decode payload port ;;
  match err with
  | Some err => ret (None, false, Some err)
  | None =>
    '(converted, err) <- Convert decoded port ;;
    match err with
    | Some err => ret (None, false, Some err)
    | None =>
      '(valid, err) <- Validate converted port ;;
      ret (converted, valid, err)
    end
  end.

End Uplink.

(** ** Go numeric conversions (amd64) *)

Definition MinInt64 : Z := - 2 ^ 63.

(** [int64(t)] for [t uint64]: two's complement wrap-around. *)
Definition int64_of_uint64 (t : Z) : Z := if t <? 2 ^ 63 then t else t - 2 ^ 64.

(** The value of a float truncated toward zero; [None] for NaN and infinities. *)
Definition sf_trunc (x : spec_float) : option Z :=
  match x with
  | S754_zero _ => Some 0
  | S754_finite s m e =>
    Some (cond_Zopp s (if 0 <=? e then Zpos m * 2 ^ e else Zpos m / 2 ^ (- e)))
  | _ => None
  end.

(** [int64(t)] for [t float32] or [t float64]: truncation toward zero. When
    the result does not fit in an int64 (or [t] is NaN or infinite), the Go
    specification leaves it implementation-dependent; on amd64 the
    conversion (CVTTSD2SQ / CVTTSS2SQ) yields math.MinInt64. *)
Definition int64_of_float (x : spec_float) : Z :=
  match sf_trunc x with
  | Some z => if (MinInt64 <=? z) && (z <? 2 ^ 63) then z else MinInt64
  | None => MinInt64
  end.

(** [float32(n)] and [float64(n)] for [n int64]: rounding to nearest even. *)
Definition float_of_int64 (prec emax : Z) (n : Z) : spec_float :=
  binary_normalize prec emax n 0 false.

Definition float32_of_int64 : Z -> spec_float := float_of_int64 24 128.
Definition float64_of_int64 : Z -> spec_float := float_of_int64 53 1024.

(** Go's [!=] on floats (false only for numerically equal non-NaN floats). *)
Definition float_neq (a b : spec_float) : bool := negb (SFeqb a b).

(** [byte(n)] *)
Definition byte_of_int64 (n : Z) : Z := n mod 256.

(** ** Downlink functions *)

Record CustomDownlinkFunctions : Type := mkDownlink {
  Encoder : string
}.

Definition ErrNotIntegerArray : error :=
  ErrInvalidArgument "Encoder" "should return an Array of integer numbers".
Definition ErrOutOfRange : error :=
  ErrInvalidArgument "Encoder Output" "Numbers in Array should be between 0 and 255".
Definition ErrMissingEncoder : error :=
  ErrInvalidArgument "Downlink Payload" "fields supplied, but no Encoder function set".

(** The type switch of the loop body (source lines 201-232): [inl n] assigns
    [n], [inr err] is the [return nil, err] of a case. *)
Definition element_int64 (el : value) : Z + error :=
  match el with
  | VUint8 t | VInt t | VInt8 t | VInt16 t | VUint16 t
  | VInt32 t | VUint32 t | VInt64 t => inl t
  | VUint64 t => inl (int64_of_uint64 t)
  | VFloat32 t =>
    let n := int64_of_float t in
    if float_neq (float32_of_int64 n) t then inr ErrNotIntegerArray else inl n
  | VFloat64 t =>
    let n := int64_of_float t in
    if float_neq (float64_of_int64 n) t then inr ErrNotIntegerArray else inl n
  | _ => inr ErrNotIntegerArray
  end.

(** [res[i] = b] *)
Fixpoint list_set (l : list Z) (i : nat) (b : Z) : list Z :=
  match l, i with
  | [], _ => []
  | _ :: l', O => b :: l'
  | x :: l', S i' => x :: list_set l' i' b
  end.

(** [for i := ...; i < l; i++ { el := s.Index(i) ... }]: [xs] are the
    elements from index [i] on, [res] the slice being filled. *)
Fixpoint encode_loop (i : nat) (xs : list value) (res : list Z)
  : option (list Z) * option error :=
  match xs with
  | [] => (Some res, None)
  | el :: xs' =>
    match element_int64 el with
    | inr err => (None, Some err)
    | inl n =>
      if (n <? 0) || (n >? 255) then (None, Some ErrOutOfRange)
      else encode_loop (S i) xs' (list_set res i (byte_of_int64 n))
    end
  end.

(** A Go call either returns or panics. *)
Inductive outcome (A : Type) : Type :=
| Returned (a : A)
| Panicked.
Arguments Returned {A} a.
Arguments Panicked {A}.

Definition encode_env (payload : gomap) (port : Z) : env :=
  [("payload", VMap payload); ("port", VUint8 port)].
Definition encoder_code (f : CustomDownlinkFunctions) : string :=
  template (Encoder f) "Encoder(payload, port)".

Section Downlink.
Variable rt : runtime.
Variable f : CustomDownlinkFunctions.

(** [func (f *DownlinkFunctions) Encode(payload map[string]interface{}, port uint8) ([]byte, error)];
    a [nil] slice is [None]. [reflect.TypeOf(nil).Kind()] panics. *)
Definition Encode (payload : gomap) (port : Z) : M (outcome (option (list Z) * option error)) :=
  if String.eqb (Encoder f) "" then ret (Returned (None, Some ErrMissingEncoder)) else
  '(value, err) <- RunCode rt "Encoder" (encoder_code f) (encode_env payload port) timeOut ;;
  match err with
  | Some err => ret (Returned (None, Some err))
  | None =>
    if negb (IsObject value) then
      ret (Returned (None, Some (ErrInvalidArgument "Encoder" "does not return an object")))
    else
      let (v, err) := Export value in
      match err with
      | Some err => ret (Returned (None, Some err))
      | None =>
        match v with
        | VNil => ret Panicked
        | VSlice s => ret (Returned (encode_loop 0 s (List.repeat 0 (List.length s))))
        | _ => ret (Returned (None, Some (ErrInvalidArgument "Encoder" "does not return an Array")))
        end
      end
  end.

(** The three-result [Encode] (source lines 245-252). *)
Definition EncodeDownlink (payload : gomap) (port : Z)
  : M (outcome (option (list Z) * bool * option error)) :=
  r <- Encode payload port ;;
  match r with
  | Panicked => ret Panicked
  | Returned (encoded, err) =>
    match err with
    | Some err => ret (Returned (None, false, Some err))
    | None => ret (Returned (encoded, true, None))
    end
  end.

End Downlink.

(** ** The byte-array contract, as the claims state it *)

(** The integer a float denotes, when it is a whole number. *)
Definition float_int_value (x : spec_float) : option Z :=
  match x with
  | S754_zero _ => Some 0
  | S754_finite s m e =>
    if 0 <=? e then Some (cond_Zopp s (Zpos m * 2 ^ e))
    else if Zpos m mod 2 ^ (- e) =? 0 then Some (cond_Zopp s (Zpos m / 2 ^ (- e)))
    else None
  | _ => None
  end.

Definition in_int64 (v : Z) : bool := (MinInt64 <=? v) && (v <? 2 ^ 63).

(** Values a Go variable of the element's type can hold. *)
Definition wf_element (el : value) : Prop :=
  match el with
  | VUint8 t => 0 <= t < 2 ^ 8
  | VInt t | VInt64 t => - 2 ^ 63 <= t < 2 ^ 63
  | VInt8 t => - 2 ^ 7 <= t < 2 ^ 7
  | VInt16 t => - 2 ^ 15 <= t < 2 ^ 15
  | VUint16 t => 0 <= t < 2 ^ 16
  | VInt32 t => - 2 ^ 31 <= t < 2 ^ 31
  | VUint32 t => 0 <= t < 2 ^ 32
  | VUint64 t | VUint t => 0 <= t < 2 ^ 64
  | VFloat32 x => valid_binary 24 128 x = true
  | VFloat64 x => valid_binary 53 1024 x = true
  | _ => True
  end.

Definition is_go_uint (el : value) : bool :=
  match el with VUint _ => true | _ => false end.

(** The whole number an element stands for: the value of an integer-typed
    element, or the integer a float denotes when it lies in the int64 range. *)
Definition whole_number (el : value) : option Z :=
  match el with
  | VUint8 t | VInt t | VInt8 t | VInt16 t | VUint16 t
  | VInt32 t | VUint32 t | VInt64 t | VUint64 t => Some t
  | VFloat32 x | VFloat64 x =>
    match float_int_value x with
    | Some v => if in_int64 v then Some v else None
    | None => None
    end
  | _ => None
  end.

Inductive element_class : Type :=
| ByteValue (b : Z)
| NotWholeNumber
| OutOfByteRange.

Definition classify_element (el : value) : element_class :=
  match whole_number el with
  | Some v => if (0 <=? v) && (v <=? 255) then ByteValue v else OutOfByteRange
  | None => NotWholeNumber
  end.

(** The elements are checked in order; the first one that fails decides
    the error; otherwise the bytes are the elements, in order. *)
Fixpoint coerce_spec (xs : list value) : option (list Z) * option error :=
  match xs with
  | [] => (Some [], None)
  | x :: xs' =>
    match classify_element x with
    | NotWholeNumber => (None, Some ErrNotIntegerArray)
    | OutOfByteRange => (None, Some ErrOutOfRange)
    | ByteValue b =>
      match coerce_spec xs' with
      | (Some bs, None) => (Some (b :: bs), None)
      | r => r
      end
    end
  end.

(** ** Sample inputs *)

(** [m * 2^e] as a float64 / float32. *)
Definition f64 (m e : Z) : spec_float := binary_normalize 53 1024 m e false.
Definition f32 (m e : Z) : spec_float := binary_normalize 24 128 m e false.

(** A runtime whose scripts all return [v]. *)
Definition const_rt (v : js_value) : runtime := fun _ _ _ _ => (v, None).

Definition enc_fn : CustomDownlinkFunctions := mkDownlink "function Encoder(p){return p.a;}".

Definition run_encoder (xs : list value) : outcome (option (list Z) * option error) :=
  fst (Encode (const_rt (JSObject (VSlice xs) None)) enc_fn None 1 []).

(** An uplink configuration with a Decoder and a Validator, and a runtime
    whose Decoder returns [{a: 1}] and whose other scripts return a string. *)
Definition up_fn : CustomUplinkFunctions :=
  mkUplink "function Decoder(b, p){return {a: 1};}" "" "function Validator(f, p){return 'ok';}".

Definition sample_fields : list (string * value) := [("a", VFloat64 (f64 1 0))].

Definition string_validator_rt : runtime := fun name _ _ _ =>
  if String.eqb name "Decoder" then (JSObject (VMap (Some sample_fields)) None, None)
  else (JSPrimitive, None).

Definition bool_validator_fn : CustomUplinkFunctions :=
  mkUplink "" "" "function Validator(f, p){return false;}".

(** Whether a script result is an object that exports to a field map. *)
Definition exports_field_map (v : js_value) : bool :=
  match v with JSObject (VMap _) _ => true | _ => false end.

(** A configuration with all three scripts set, and a runtime whose
    Validator returns [true] and whose other scripts return [sample_fields]. *)
Definition full_fn : CustomUplinkFunctions :=
  mkUplink "function Decoder(b, p){return {a: 1};}" "function Converter(f, p){return f;}"
    "function Validator(f, p){return true;}".

Definition full_rt : runtime := fun n _ _ _ =>
  if String.eqb n "Validator" then (JSBoolean true, None)
  else (JSObject (VMap (Some sample_fields)) None, None).

(** A runtime whose scripts all fail with [e]. *)
Definition error_rt (e : error) : runtime := fun _ _ _ _ => (JSPrimitive, Some e).

Definition sample_runtime_error : error := ErrRuntime "Encoder" "script interrupted".

(** A configuration without a Decoder. *)
Definition no_decoder_fn : CustomUplinkFunctions :=
  mkUplink "" "function Converter(f, p){return f;}" "function Validator(f, p){return true;}".

Example encode_1_5 : run_encoder [VFloat64 (f64 3 (-1))] = Returned (None, Some ErrNotIntegerArray).
Proof. vm_compute. reflexivity. Qed.
Example encode_256 : run_encoder [VFloat64 (f64 256 0)] = Returned (None, Some ErrOutOfRange).
Proof. vm_compute. reflexivity. Qed.
Example encode_m1 : run_encoder [VFloat64 (f64 (-1) 0)] = Returned (None, Some ErrOutOfRange).
Proof. vm_compute. reflexivity. Qed.
Example encode_0_255 : run_encoder [VFloat64 (f64 0 0); VFloat64 (f64 255 0)] = Returned (Some [0; 255], None).
Proof. vm_compute. reflexivity. Qed.
Example encode_f32 : run_encoder [VFloat32 (f32 255 0); VInt64 7; VUint64 3] = Returned (Some [255; 7; 3], None).
Proof. vm_compute. reflexivity. Qed.

(** ** Unfolding the computations *)

Ltac unfold_M :=
  unfold DecodeUplink, Decode, Convert, Validate, EncodeDownlink, Encode,
    RunCode, bind, ret, IsObject, IsBoolean, Export, ToBoolean in *.

(** Splits on every script emptiness test, runtime answer and branch. *)
Ltac split_M :=
  repeat (simpl in *;
    match goal with
    | |- context [String.eqb ?a ?b] => destruct (String.eqb a b) eqn:?
    | |- context [?rt ?n ?c ?e ?t] =>
        match type of rt with runtime => destruct (rt n c e t) as [[] []] eqn:? end
    | |- context [match ?x with _ => _ end] => is_var x; destruct x
    | |- context [encode_loop ?i ?xs ?res] => destruct (encode_loop i xs res)
    end).

Lemma encode_loop_error_nil i xs res bytes err :
  encode_loop i xs res = (bytes, Some err) -> bytes = None.
Proof.
  revert i res. induction xs as [|el xs IH]; intros i res H; simpl in H.
  - discriminate.
  - destruct (element_int64 el) as [n|e].
    + destruct ((n <? 0) || (n >? 255)).
      * congruence.
      * exact (IH _ _ H).
    + congruence.
Qed.

Lemma Encode_error_nil rt f payload port tr bytes err tr' :
  Encode rt f payload port tr = (Returned (bytes, Some err), tr') -> bytes = None.
Proof.
  unfold Encode, RunCode, bind, ret.
  destruct (String.eqb (Encoder f) "").
  - congruence.
  - destruct (rt _ _ _ _) as [value [e|]]; [congruence|].
    destruct (IsObject value); simpl; [|congruence].
    destruct (Export value) as [v [e|]]; [congruence|].
    destruct v; try congruence.
    intro H. injection H as H _. exact (encode_loop_error_nil _ _ _ _ _ H).
Qed.

Lemma Validate_error_false rt f fields port tr v err tr' :
  Validate rt f fields port tr = ((v, Some err), tr') -> v = false.
Proof.
  unfold Validate, RunCode, bind, ret.
  destruct (String.eqb (Validator f) ""); [congruence|].
  destruct (rt _ _ _ _) as [value [e|]]; [congruence|].
  destruct value; simpl; congruence.
Qed.

(** ** Go float-to-int64 round trips *)

Lemma digits2_pos_log2 p : Zpos (digits2_pos p) = Z.log2 (Zpos p) + 1.
Proof.
  assert (Hs : digits2_pos p = Pos.size p) by (induction p; simpl; congruence).
  rewrite Hs. destruct p as [q|q|]; simpl; try reflexivity; rewrite Pos2Z.inj_succ; lia.
Qed.

Lemma iter_xO_mul p q : Zpos (Pos.iter xO p q) = Zpos p * 2 ^ Zpos q.
Proof.
  rewrite (Pos.iter_swap_gen _ _ Zpos xO (Z.mul 2)) by reflexivity.
  rewrite <- Z.shiftl_mul_pow2 by lia. reflexivity.
Qed.

Lemma iter_pos_iter {A} (g : A -> A) p x : iter_pos g p x = Pos.iter g x p.
Proof.
  revert x. induction p as [q IH|q IH|]; intro x; simpl.
  - rewrite !IH, !Pos.iter_swap. reflexivity.
  - rewrite !IH. reflexivity.
  - reflexivity.
Qed.

Lemma shr_1_iter_xO k M :
  Pos.iter shr_1 (Build_shr_record (Zpos (Pos.iter xO M k)) false false) k =
  Build_shr_record (Zpos M) false false.
Proof.
  revert M. induction k as [|k IH] using Pos.peano_ind; intro M.
  - reflexivity.
  - rewrite Pos.iter_succ.
    replace (Pos.iter xO M (Pos.succ k)) with (Pos.iter xO (xO M) k)
      by (rewrite Pos.iter_succ, <- Pos.iter_swap; reflexivity).
    rewrite IH. reflexivity.
Qed.

Section FloatRounding.
Variables prec emax : Z.
Hypothesis Hprec : 1 <= prec.
Hypothesis Hemax : prec + 2 <= emax.

Lemma fexp_ge e : 1 - prec <= e -> fexp prec emax (prec + e) = e.
Proof. intro. unfold fexp, emin. lia. Qed.

Lemma shr_fexp_none M e :
  Zpos (digits2_pos M) = prec -> 1 - prec <= e ->
  shr_fexp prec emax (Zpos M) e loc_Exact = (Build_shr_record (Zpos M) false false, e).
Proof.
  intros HM He. unfold shr_fexp. simpl Zdigits2. rewrite HM, fexp_ge by exact He.
  rewrite Z.sub_diag. reflexivity.
Qed.

Lemma binary_round_aux_exact s M e :
  Zpos (digits2_pos M) = prec -> 1 - prec <= e <= emax - prec ->
  binary_round_aux prec emax s (Zpos M) e loc_Exact = S754_finite s M e.
Proof.
  intros HM He. unfold binary_round_aux.
  rewrite shr_fexp_none by (assumption || lia). simpl.
  rewrite shr_fexp_none by (assumption || lia). simpl.
  replace (e <=? emax - prec) with true by (symmetry; apply Z.leb_le; lia).
  reflexivity.
Qed.

Lemma shr_fexp_shift M k :
  Zpos (digits2_pos M) = prec ->
  shr_fexp prec emax (Zpos (Pos.iter xO M k)) 0 loc_Exact =
  (Build_shr_record (Zpos M) false false, Zpos k).
Proof.
  intro HM. rewrite digits2_pos_log2 in HM.
  assert (Hd : Zpos (digits2_pos (Pos.iter xO M k)) = Zpos k + prec)
    by (rewrite digits2_pos_log2, iter_xO_mul, Z.log2_mul_pow2 by lia; lia).
  unfold shr_fexp. simpl Zdigits2. rewrite Hd.
  replace (fexp prec emax (Zpos k + prec + 0) - 0) with (Zpos k)
    by (unfold fexp, emin; lia).
  unfold shr. rewrite iter_pos_iter. simpl shr_record_of_loc.
  rewrite shr_1_iter_xO. reflexivity.
Qed.

Lemma binary_round_aux_shift s M k :
  Zpos (digits2_pos M) = prec -> Zpos k <= emax - prec ->
  binary_round_aux prec emax s (Zpos (Pos.iter xO M k)) 0 loc_Exact = S754_finite s M (Zpos k).
Proof.
  intros HM Hk. unfold binary_round_aux.
  rewrite shr_fexp_shift by assumption. simpl.
  rewrite shr_fexp_none by (assumption || lia). simpl.
  replace (Zpos k <=? emax - prec) with true by (symmetry; apply Z.leb_le; lia).
  reflexivity.
Qed.

(** Rounding a positive integer that is representable with [prec] bits
    gives that integer back, in canonical form. *)
Lemma binary_round_int s p :
  Z.log2 (Zpos p) + 1 <= emax ->
  (Z.log2 (Zpos p) + 1 <= prec \/ Zpos p mod 2 ^ (Z.log2 (Zpos p) + 1 - prec) = 0) ->
  exists M,
    binary_round prec emax s p 0 = S754_finite s M (Z.log2 (Zpos p) + 1 - prec) /\
    Zpos (digits2_pos M) = prec /\
    Zpos M * 2 ^ (Z.max 0 (Z.log2 (Zpos p) + 1 - prec)) =
    Zpos p * 2 ^ (Z.max 0 (prec - (Z.log2 (Zpos p) + 1))).
Proof.
  intros Hd Hdiv.
  pose proof (Z.log2_nonneg (Zpos p)) as Hl.
  set (d := Z.log2 (Zpos p) + 1) in *.
  unfold binary_round. rewrite digits2_pos_log2, Z.add_0_r. fold d.
  replace (fexp prec emax d) with (d - prec) by (unfold fexp, emin; lia).
  unfold shl_align.
  destruct (Z.compare_spec d prec) as [Heq|Hlt|Hgt].
  - replace (d - prec - 0) with 0 by lia. cbv beta iota.
    exists p. rewrite digits2_pos_log2. fold d.
    replace (d - prec) with 0 by lia.
    split; [|split]; [|lia|].
    + rewrite binary_round_aux_exact by (rewrite ?digits2_pos_log2; lia). reflexivity.
    + replace (Z.max 0 (prec - d)) with 0 by lia. reflexivity.
  - set (q := Z.to_pos (prec - d)).
    assert (Hq : Zpos q = prec - d) by (unfold q; rewrite Z2Pos.id; lia).
    replace (d - prec - 0) with (Zneg q) by lia. cbv beta iota.
    assert (HM : Zpos (digits2_pos (Pos.iter xO p q)) = prec).
    { rewrite digits2_pos_log2, iter_xO_mul, Z.log2_mul_pow2 by lia. lia. }
    exists (Pos.iter xO p q). split; [|split]; [|exact HM|].
    + apply binary_round_aux_exact; [exact HM|lia].
    + rewrite iter_xO_mul, Hq.
      replace (Z.max 0 (d - prec)) with 0 by lia.
      replace (Z.max 0 (prec - d)) with (prec - d) by lia. lia.
  - set (k := Z.to_pos (d - prec)).
    assert (Hk : Zpos k = d - prec) by (unfold k; rewrite Z2Pos.id; lia).
    replace (d - prec - 0) with (Zpos k) by lia. cbv beta iota.
    destruct Hdiv as [Hdiv|Hdiv]; [lia|].
    rewrite <- Hk in Hdiv.
    assert (Hpos : 0 < Zpos p / 2 ^ Zpos k).
    { apply Z.div_str_pos. split; [lia|].
      apply Z.log2_le_pow2; lia. }
    set (M := Z.to_pos (Zpos p / 2 ^ Zpos k)).
    assert (Hp : Pos.iter xO M k = p).
    { apply Pos2Z.inj. rewrite iter_xO_mul. unfold M. rewrite Z2Pos.id by lia.
      rewrite Z.mul_comm. symmetry. apply Z.div_exact; [lia|exact Hdiv]. }
    assert (HM : Zpos (digits2_pos M) = prec).
    { rewrite digits2_pos_log2.
      assert (E : Z.log2 (Zpos p) = Z.log2 (Zpos (Pos.iter xO M k))) by now rewrite Hp.
      rewrite iter_xO_mul, Z.log2_mul_pow2 in E by lia. fold d in E. lia. }
    exists M. split; [|split]; [|exact HM|].
    + rewrite <- Hp at 1. rewrite binary_round_aux_shift by (assumption || lia).
      rewrite Hk. reflexivity.
    + rewrite <- Hp. rewrite iter_xO_mul, Hk.
      replace (Z.max 0 (d - prec)) with (d - prec) by lia.
      replace (Z.max 0 (prec - d)) with 0 by lia. lia.
Qed.
End FloatRounding.

Lemma SFeqb_finite s1 m1 e1 s2 m2 e2 :
  SFeqb (S754_finite s1 m1 e1) (S754_finite s2 m2 e2) = true <->
  s1 = s2 /\ m1 = m2 /\ e1 = e2.
Proof.
  unfold SFeqb, SFcompare.
  destruct s1, s2, (Z.compare_spec e1 e2) as [He|He|He];
  destruct (Pos.compare_cont Eq m1 m2) eqn:Hc; simpl;
  split; intro H; try discriminate H;
  try (destruct H as (Hs & Hm' & He'); subst; try discriminate Hs; try lia;
       change (Pos.compare_cont Eq m2 m2) with (Pos.compare m2 m2) in Hc;
       rewrite Pos.compare_refl in Hc; discriminate Hc);
  change (Pos.compare_cont Eq m1 m2) with (Pos.compare m1 m2) in Hc;
  apply Pos.compare_eq_iff in Hc; subst; repeat split.
Qed.

Section FloatCheck.
Variables prec emax : Z.
Hypothesis Hprec : 1 <= prec.
Hypothesis Hemax : prec + 2 <= emax.
Hypothesis H64 : 64 <= emax.

Lemma trunc_of_round M E p :
  Zpos M * 2 ^ (Z.max 0 E) = Zpos p * 2 ^ (Z.max 0 (- E)) ->
  (if 0 <=? E then Zpos M * 2 ^ E else Zpos M / 2 ^ (- E)) = Zpos p.
Proof.
  intro H. destruct (Z.leb_spec 0 E).
  - replace (Z.max 0 (- E)) with 0 in H by lia. replace (Z.max 0 E) with E in H by lia. lia.
  - replace (Z.max 0 (- E)) with (- E) in H by lia. replace (Z.max 0 E) with 0 in H by lia.
    rewrite Z.mul_1_r in H. rewrite H. apply Z.div_mul.
    apply Z.pow_nonzero; lia.
Qed.

Lemma round_MinInt64 :
  exists M E, float_of_int64 prec emax MinInt64 = S754_finite true M E /\
    (if 0 <=? E then Zpos M * 2 ^ E else Zpos M / 2 ^ (- E)) = 2 ^ 63.
Proof.
  assert (Hl : Z.log2 (Zpos (Z.to_pos (2 ^ 63))) = 63) by reflexivity.
  destruct (binary_round_int prec emax Hprec Hemax true (Z.to_pos (2 ^ 63)))
    as (M & Hr & _ & Hv).
  - rewrite Hl. lia.
  - rewrite Hl. destruct (Z.leb_spec (63 + 1) prec); [left; lia|right].
    change (Zpos (Z.to_pos (2 ^ 63))) with (2 ^ 63).
    replace 63 with ((63 + 1 - prec) + (prec - 1)) at 1 by lia.
    rewrite Z.pow_add_r, Z.mul_comm by lia. apply Z.mod_mul. apply Z.pow_nonzero; lia.
  - rewrite Hl in Hr, Hv.
    exists M, (63 + 1 - prec). split.
    + exact Hr.
    + rewrite (trunc_of_round M (63 + 1 - prec) (Z.to_pos (2 ^ 63))).
      * reflexivity.
      * rewrite Hv. f_equal. f_equal. lia.
Qed.

Lemma valid_finite_shape s m e :
  valid_binary prec emax (S754_finite s m e) = true ->
  (Z.log2 (Zpos m) + 1 = prec \/ (e = 3 - emax - prec /\ Z.log2 (Zpos m) + 1 < prec)) /\
  e <= emax - prec.
Proof.
  unfold valid_binary, bounded, canonical_mantissa. intro H.
  apply andb_prop in H as [H1 H2]. apply Z.eqb_eq in H1. apply Z.leb_le in H2.
  rewrite digits2_pos_log2 in H1. unfold fexp, emin in H1. lia.
Qed.

Lemma log2_lt_pow m n : 0 < m -> Z.log2 m + 1 <= n -> m < 2 ^ n.
Proof.
  intros Hm Hn. destruct (Z.log2_spec m Hm) as [_ H].
  apply Z.lt_le_trans with (2 ^ Z.succ (Z.log2 m)); [exact H|].
  apply Z.pow_le_mono_r; lia.
Qed.

(** Go's test [float(int64(t)) != t] on a float [t]: it fails exactly when
    [t] denotes an integer in the int64 range, and [int64(t)] is then that
    integer. *)
Lemma float_check t :
  valid_binary prec emax t = true ->
  SFeqb (float_of_int64 prec emax (int64_of_float t)) t =
    match float_int_value t with Some v => in_int64 v | None => false end /\
  (forall v, float_int_value t = Some v -> in_int64 v = true -> int64_of_float t = v).
Proof.
  intro Hv.
  destruct (round_MinInt64) as (M0 & E0 & Hr0 & Ht0).
  destruct t as [s|s| |s m e].
  - split; [reflexivity|]. intros v Hval _. injection Hval as <-. reflexivity.
  - cbv beta iota delta [int64_of_float sf_trunc]. rewrite Hr0.
    split; [destruct s; reflexivity | discriminate].
  - cbv beta iota delta [int64_of_float sf_trunc]. rewrite Hr0.
    split; [reflexivity | discriminate].
  - destruct (valid_finite_shape s m e Hv) as [Hshape Hemax'].
    assert (Hval : forall v, float_int_value (S754_finite s m e) = Some v ->
      v = cond_Zopp s (if 0 <=? e then Zpos m * 2 ^ e else Zpos m / 2 ^ (- e))).
    { intros v. simpl. destruct (0 <=? e); [congruence|].
      destruct (Zpos m mod 2 ^ (- e) =? 0); congruence. }
    unfold int64_of_float, sf_trunc.
    set (a := if 0 <=? e then Zpos m * 2 ^ e else Zpos m / 2 ^ (- e)) in *.
    assert (Ha0 : 0 <= a).
    { unfold a. destruct (Z.leb_spec 0 e).
      - apply Z.mul_nonneg_nonneg; [lia | apply Z.pow_nonneg; lia].
      - apply Z.div_pos; [lia | apply Z.pow_pos_nonneg; lia]. }
    destruct ((MinInt64 <=? cond_Zopp s a) && (cond_Zopp s a <? 2 ^ 63)) eqn:Hr.
    2:{
      rewrite Hr0. split.
      - destruct (SFeqb (S754_finite true M0 E0) (S754_finite s m e)) eqn:Heq.
        + apply SFeqb_finite in Heq as (<- & <- & <-).
          fold a in Ht0. rewrite Ht0 in Hr. discriminate Hr.
        + destruct (float_int_value (S754_finite s m e)) as [v|] eqn:Hfv; [|reflexivity].
          rewrite (Hval v eq_refl). unfold in_int64. rewrite Hr. reflexivity.
      - intros v Hfv Hin. rewrite (Hval v Hfv) in Hin. unfold in_int64 in Hin. congruence. }
    split; [|intros v Hfv _; symmetry; exact (Hval v Hfv)].
    assert (Ha63 : a <= 2 ^ 63).
    { unfold MinInt64 in Hr. apply andb_prop in Hr as [H1 H2].
      apply Z.leb_le in H1. apply Z.ltb_lt in H2.
      destruct s; cbn [cond_Zopp] in H1, H2; lia. }
    assert (Hfv_e : float_int_value (S754_finite s m e) =
      if 0 <=? e then Some (cond_Zopp s (Zpos m * 2 ^ e))
      else if Zpos m mod 2 ^ (- e) =? 0 then Some (cond_Zopp s (Zpos m / 2 ^ (- e)))
      else None) by reflexivity.
    rewrite Hfv_e.
    assert (Hm_lt : Zpos m < 2 ^ prec) by (apply log2_lt_pow; lia).
    destruct (Z.leb_spec 0 e) as [He|He].
    + (* e >= 0: t is a whole number *)
      assert (Ha_e : a = Zpos m * 2 ^ e)
        by (unfold a; destruct (Z.leb_spec 0 e); [reflexivity | lia]).
      assert (Hnorm : Z.log2 (Zpos m) + 1 = prec) by lia.
      assert (Hpos : 0 < Zpos m * 2 ^ e) by (apply Z.mul_pos_pos; [lia | apply Z.pow_pos_nonneg; lia]).
      set (pa := Z.to_pos a).
      assert (Hpa : Zpos pa = a) by (unfold pa; rewrite Z2Pos.id; lia).
      assert (Hlog : Z.log2 (Zpos pa) = e + Z.log2 (Zpos m))
        by (rewrite Hpa, Ha_e; apply Z.log2_mul_pow2; lia).
      replace (cond_Zopp s a) with (cond_Zopp s (Zpos pa)) by (rewrite Hpa; reflexivity).
      replace (float_of_int64 prec emax (cond_Zopp s (Zpos pa))) with (binary_round prec emax s pa 0)
        by (destruct s; reflexivity).
      destruct (binary_round_int prec emax Hprec Hemax s pa) as (M & Hround & HMd & Hrel).
      * lia.
      * right. replace (Z.log2 (Zpos pa) + 1 - prec) with e by lia.
        rewrite Hpa, Ha_e. apply Z.mod_mul. apply Z.pow_nonzero; lia.
      * rewrite Hround. replace (Z.log2 (Zpos pa) + 1 - prec) with e in * by lia.
        replace (Z.max 0 e) with e in Hrel by lia.
        replace (Z.max 0 (prec - (Z.log2 (Zpos pa) + 1))) with 0 in Hrel by lia.
        rewrite Z.pow_0_r, Z.mul_1_r, Hpa, Ha_e in Hrel.
        assert (HMm : M = m).
        { apply Pos2Z.inj. apply Z.mul_cancel_r with (2 ^ e); [apply Z.pow_nonzero; lia | exact Hrel]. }
        subst M. rewrite (proj2 (SFeqb_finite s m e s m e) (conj eq_refl (conj eq_refl eq_refl))).
        replace (0 <=? e) with true by (symmetry; apply Z.leb_le; lia).
        rewrite <- Ha_e. exact (eq_sym Hr).
    + (* e < 0 *)
      assert (Ha_e : a = Zpos m / 2 ^ (- e))
        by (unfold a; destruct (Z.leb_spec 0 e); [lia | reflexivity]).
      replace (0 <=? e) with false by (symmetry; apply Z.leb_gt; lia).
      assert (Hk : 0 < 2 ^ (- e)) by (apply Z.pow_pos_nonneg; lia).
      destruct (Z.eq_dec a 0) as [Ha|Ha].
      * (* |t| < 1: not a whole number *)
        rewrite Ha. replace (cond_Zopp s 0) with 0 by (destruct s; reflexivity).
        change (float_of_int64 prec emax 0) with (S754_zero false).
        assert (Hsmall : Zpos m < 2 ^ (- e)).
        { rewrite Ha_e in Ha. apply Z.div_small_iff in Ha; lia. }
        rewrite Z.mod_small by lia.
        destruct s; reflexivity.
      * set (pa := Z.to_pos a).
        assert (Hpa : Zpos pa = a) by (unfold pa; rewrite Z2Pos.id; lia).
        assert (Hle : a * 2 ^ (- e) <= Zpos m)
          by (rewrite Ha_e, Z.mul_comm; apply Z.mul_div_le; lia).
        assert (Hge : 2 ^ (- e) <= Zpos m) by nia.
        assert (Hlt : a < 2 ^ prec) by nia.
        replace (cond_Zopp s a) with (cond_Zopp s (Zpos pa)) by (rewrite Hpa; reflexivity).
        replace (float_of_int64 prec emax (cond_Zopp s (Zpos pa))) with (binary_round prec emax s pa 0)
          by (destruct s; reflexivity).
        assert (Hla : Z.log2 (Zpos pa) < prec)
          by (apply Z.log2_lt_pow2; lia).
        destruct (binary_round_int prec emax Hprec Hemax s pa) as (M & Hround & HMd & Hrel).
        -- assert (Z.log2 (Zpos pa) <= Z.log2 (2 ^ 63)) by (apply Z.log2_le_mono; lia).
           rewrite Z.log2_pow2 in H by lia. lia.
        -- left. lia.
        -- rewrite Hround.
           set (E := Z.log2 (Zpos pa) + 1 - prec) in *.
           replace (Z.max 0 E) with 0 in Hrel by lia.
           replace (Z.max 0 (prec - (Z.log2 (Zpos pa) + 1))) with (- E) in Hrel by lia.
           rewrite Z.pow_0_r, Z.mul_1_r in Hrel.
           destruct (Zpos m mod 2 ^ (- e) =? 0) eqn:Hmod.
           ++ apply Z.eqb_eq in Hmod.
              assert (Hm : Zpos m = a * 2 ^ (- e))
                by (rewrite Ha_e, Z.mul_comm; apply Z.div_exact; lia).
              assert (Hnorm : Z.log2 (Zpos m) + 1 = prec).
              { destruct Hshape as [Hn|[He' Hn]]; [exact Hn|].
                assert (2 ^ prec <= 2 ^ (- e)) by (apply Z.pow_le_mono_r; lia). lia. }
              assert (HlogM : Z.log2 (Zpos m) = - e + Z.log2 (Zpos pa))
                by (rewrite Hm, <- Hpa; apply Z.log2_mul_pow2; lia).
              assert (HE : E = e) by (unfold E; lia).
              rewrite HE in Hrel.
              assert (HMm : M = m) by (apply Pos2Z.inj; rewrite Hrel, Hm, Hpa; reflexivity).
              subst M. rewrite HE.
              rewrite (proj2 (SFeqb_finite s m e s m e) (conj eq_refl (conj eq_refl eq_refl))).
              rewrite <- Ha_e. exact (eq_sym Hr).
           ++ destruct (SFeqb (S754_finite s M E) (S754_finite s m e)) eqn:Heq; [|reflexivity].
              apply SFeqb_finite in Heq as (_ & HMm & HE). subst M.
              rewrite HE in Hrel. rewrite Hrel in Hmod.
              rewrite Z.mod_mul in Hmod by lia. discriminate Hmod.
Qed.
End FloatCheck.

(** ** The byte coercion of Encode *)

Lemma range_bool v : (0 <=? v) && (v <=? 255) = negb ((v <? 0) || (v >? 255)).
Proof.
  rewrite Z.gtb_ltb.
  destruct (Z.leb_spec 0 v), (Z.leb_spec v 255), (Z.ltb_spec v 0), (Z.ltb_spec 255 v);
    simpl; try reflexivity; lia.
Qed.

Lemma classify_in_range v :
  (if (0 <=? v) && (v <=? 255) then ByteValue v else OutOfByteRange) =
  (if (v <? 0) || (v >? 255) then OutOfByteRange else ByteValue v).
Proof. rewrite range_bool. destruct ((v <? 0) || (v >? 255)); reflexivity. Qed.

Lemma float_element prec emax t
  (Hp : 1 <= prec) (He : prec + 2 <= emax) (H64 : 64 <= emax) :
  valid_binary prec emax t = true ->
  let n := int64_of_float t in
  match (if float_neq (float_of_int64 prec emax n) t then inr ErrNotIntegerArray else inl n) with
  | inr err => err = ErrNotIntegerArray /\
      match float_int_value t with Some v => in_int64 v = false | None => True end
  | inl n => float_int_value t = Some n /\ in_int64 n = true
  end.
Proof.
  intros Hv n. subst n.
  destruct (float_check prec emax Hp He H64 t Hv) as [Heq Hval].
  unfold float_neq. rewrite Heq.
  destruct (float_int_value t) as [v|]; [destruct (in_int64 v) eqn:Hi|]; simpl.
  - rewrite (Hval v eq_refl Hi). auto.
  - auto.
  - auto.
Qed.

(** One pass of the type switch agrees with [classify_element]. *)
Lemma element_int64_class el :
  wf_element el -> is_go_uint el = false ->
  match element_int64 el with
  | inr err => err = ErrNotIntegerArray /\ classify_element el = NotWholeNumber
  | inl n => classify_element el =
      if (n <? 0) || (n >? 255) then OutOfByteRange else ByteValue n
  end.
Proof.
  intros Hwf Hu.
  destruct el as [t|t|t|t|t|t|t|t|t|t|t|t|s|b| |l|m]; try discriminate Hu;
    unfold element_int64, classify_element, whole_number; simpl in Hwf;
    try (split; reflexivity); try apply classify_in_range.
  - unfold int64_of_uint64. destruct (Z.ltb_spec t (2 ^ 63)).
    + apply classify_in_range.
    + destruct (Z.leb_spec t 255); [lia|].
      rewrite andb_false_r. destruct (Z.ltb_spec (t - 2 ^ 64) 0); [reflexivity | lia].
  - pose proof (float_element 24 128 t ltac:(lia) ltac:(lia) ltac:(lia) Hwf) as H.
    unfold float32_of_int64.
    cbv zeta in H |- *.
    destruct (float_neq (float_of_int64 24 128 (int64_of_float t)) t).
    + destruct H as [_ H]. split; [reflexivity|].
      destruct (float_int_value t) as [v|]; [rewrite H|]; reflexivity.
    + destruct H as [-> ->]. apply classify_in_range.
  - pose proof (float_element 53 1024 t ltac:(lia) ltac:(lia) ltac:(lia) Hwf) as H.
    unfold float64_of_int64.
    cbv zeta in H |- *.
    destruct (float_neq (float_of_int64 53 1024 (int64_of_float t)) t).
    + destruct H as [_ H]. split; [reflexivity|].
      destruct (float_int_value t) as [v|]; [rewrite H|]; reflexivity.
    + destruct H as [-> ->]. apply classify_in_range.
Qed.

Lemma list_set_length l i b : List.length (list_set l i b) = List.length l.
Proof.
  revert i. induction l as [|x l IH]; intros [|i]; simpl; auto.
Qed.

Lemma firstn_list_set l i b :
  (i < List.length l)%nat ->
  firstn (S i) (list_set l i b) = app (firstn i l) [b].
Proof.
  revert i. induction l as [|x l IH]; intros [|i] Hi; simpl in *; try lia.
  - reflexivity.
  - rewrite IH by lia. reflexivity.
Qed.

Lemma encode_loop_spec xs :
  Forall wf_element xs -> Forall (fun x => is_go_uint x = false) xs ->
  forall i res, List.length res = (i + List.length xs)%nat ->
  encode_loop i xs res =
    match coerce_spec xs with
    | (Some bs, None) => (Some (app (firstn i res) bs), None)
    | r => r
    end.
Proof.
  induction 1 as [|x xs Hx Hxs IH]; intros Hu i res Hlen; inversion Hu as [|? ? Hux Hus]; subst.
  - simpl in *. rewrite app_nil_r, firstn_all2 by lia. reflexivity.
  - simpl.
    pose proof (element_int64_class x Hx Hux) as Hc.
    destruct (element_int64 x) as [n|err].
    + rewrite Hc.
      destruct ((n <? 0) || (n >? 255)) eqn:Hr; [reflexivity|].
      assert (Hb : byte_of_int64 n = n).
      { unfold byte_of_int64. apply Z.mod_small.
        rewrite Z.gtb_ltb in Hr. apply orb_false_iff in Hr as [H1 H2].
        apply Z.ltb_ge in H1. apply Z.ltb_ge in H2. lia. }
      rewrite Hb, IH by (auto; rewrite list_set_length; simpl in Hlen; lia).
      rewrite firstn_list_set by (simpl in Hlen; lia).
      destruct (coerce_spec xs) as [[bs|] [e|]]; try reflexivity.
      rewrite <- app_assoc. reflexivity.
    + destruct Hc as [-> ->]. reflexivity.
Qed.

Lemma coerce_spec_bytes xs bs :
  coerce_spec xs = (Some bs, None) ->
  Forall2 (fun x b => whole_number x = Some b /\ 0 <= b <= 255) xs bs.
Proof.
  revert bs. induction xs as [|x xs IH]; intros bs H; simpl in H.
  - injection H as <-. constructor.
  - unfold classify_element in H.
    destruct (whole_number x) as [v|] eqn:Hw; [|discriminate H].
    destruct ((0 <=? v) && (v <=? 255)) eqn:Hr; [|discriminate H].
    destruct (coerce_spec xs) as [[bs'|] [e|]] eqn:Hc; try discriminate H.
    injection H as <-. constructor; [|apply IH; reflexivity].
    apply andb_true_iff in Hr as [H1 H2].
    apply Z.leb_le in H1. apply Z.leb_le in H2. auto.
Qed.

(** ** Uplink pipeline *)

Example uplink_string_validator :
  fst (DecodeUplink string_validator_rt up_fn [1] 1 []) =
  (Some sample_fields, false, Some (ErrInvalidArgument "Validator" "does not return a boolean")).
Proof. vm_compute. reflexivity. Qed.

(** C1 (counterexample): a Validator returning a string does not yield a nil
    field map: the pipeline returns the Convert output with the error. *)
Lemma C1_validator_string_keeps_fields :
  ~ (forall rt f payload port,
       match fst (DecodeUplink rt f payload port []) with
       | (m, valid, Some _) => m = None /\ valid = false
       | _ => True
       end).
Proof.
  intro H. specialize (H string_validator_rt up_fn [1] 1).
  vm_compute in H. destruct H as [H _]. discriminate H.
Qed.

(** C1 (amended): whenever the uplink pipeline returns an error, isValid is
    false; the field map is nil when Decode or Convert failed, and when both
    succeeded (so Validate failed) it is the output of Convert. *)
Theorem DecodeUplink_error_outcome rt f payload port tr m valid err tr'
  (H : DecodeUplink rt f payload port tr = ((m, valid, Some err), tr')) :
  valid = false /\
  match Decode rt f payload port tr with
  | ((_, Some _), _) => m = None
  | ((d, None), tr1) =>
    match Convert rt f d port tr1 with
    | ((_, Some _), _) => m = None
    | ((c, None), tr2) => m = c /\ snd (fst (Validate rt f c port tr2)) = Some err
    end
  end.
Proof.
  unfold DecodeUplink, bind, ret in H.
  destruct (Decode rt f payload port tr) as [[d [e1|]] tr1] eqn:HD.
  - inversion H; subst. auto.
  - destruct (Convert rt f d port tr1) as [[c [e2|]] tr2] eqn:HC.
    + inversion H; subst. auto.
    + destruct (Validate rt f c port tr2) as [[v e3] tr3] eqn:HV.
      inversion H; subst. split.
      * exact (Validate_error_false _ _ _ _ _ _ _ _ HV).
      * auto.
Qed.

Lemma DecodeUplink_error_outcome_witness :
  DecodeUplink string_validator_rt up_fn [1] 1 [] =
    ((Some sample_fields, false,
      Some (ErrInvalidArgument "Validator" "does not return a boolean")),
     snd (DecodeUplink string_validator_rt up_fn [1] 1 [])) /\
  (false = false /\
   match Decode string_validator_rt up_fn [1] 1 [] with
   | ((_, Some _), _) => Some sample_fields = None
   | ((d, None), tr1) =>
     match Convert string_validator_rt up_fn d 1 tr1 with
     | ((_, Some _), _) => Some sample_fields = None
     | ((c, None), tr2) => Some sample_fields = c /\
         snd (fst (Validate string_validator_rt up_fn c 1 tr2)) =
           Some (ErrInvalidArgument "Validator" "does not return a boolean")
     end
   end).
Proof.
  assert (H : DecodeUplink string_validator_rt up_fn [1] 1 [] =
    ((Some sample_fields, false,
      Some (ErrInvalidArgument "Validator" "does not return a boolean")),
     snd (DecodeUplink string_validator_rt up_fn [1] 1 []))) by (vm_compute; reflexivity).
  split; [exact H|].
  exact (DecodeUplink_error_outcome string_validator_rt up_fn [1] 1 [] _ _ _ _ H).
Defined.

(** C3: with the Decoder, Converter and Validator all empty, the uplink
    pipeline runs no script and returns (nil, true, nil); an empty Converter
    passes its input through and an empty Validator yields true. *)
Theorem DecodeUplink_empty_scripts rt f payload port tr
  (HD : Decoder f = "") (HC : Converter f = "") (HV : Validator f = "") :
  DecodeUplink rt f payload port tr = ((None, true, None), tr) /\
  Decode rt f payload port tr = ((None, None), tr) /\
  (forall fields, Convert rt f fields port tr = ((fields, None), tr)) /\
  (forall fields, Validate rt f fields port tr = ((true, None), tr)).
Proof.
  unfold_M. rewrite HD, HC, HV. simpl. auto.
Qed.

Lemma DecodeUplink_empty_scripts_witness :
  DecodeUplink (const_rt JSPrimitive) (mkUplink "" "" "") [1; 2] 3 [] = ((None, true, None), []).
Proof.
  apply (DecodeUplink_empty_scripts (const_rt JSPrimitive) (mkUplink "" "" "") [1; 2] 3 []);
    reflexivity.
Defined.

(** C5: when the Decoder (or Converter) script runs and its result is not an
    object exporting to a field map, the stage returns no field map and the
    error "does not return an object" naming the transform. *)
Theorem object_mode_rejects_non_objects rt f payload fields port tr v :
  (Decoder f <> "" ->
   rt "Decoder" (decoder_code f) (payload_env payload port) timeOut = (v, None) ->
   exports_field_map v = false ->
   fst (Decode rt f payload port tr) =
     (None, Some (ErrInvalidArgument "Decoder" "does not return an object"))) /\
  (Converter f <> "" ->
   rt "Converter" (converter_code f) (fields_env fields port) timeOut = (v, None) ->
   exports_field_map v = false ->
   fst (Convert rt f fields port tr) =
     (None, Some (ErrInvalidArgument "Converter" "does not return an object"))).
Proof.
  split; intros Hne Hrt Hv; unfold Decode, Convert, RunCode, bind, ret.
  - apply String.eqb_neq in Hne. rewrite Hne, Hrt.
    destruct v as [[] e| |]; simpl in *; congruence.
  - apply String.eqb_neq in Hne. rewrite Hne, Hrt.
    destruct v as [[] e| |]; simpl in *; congruence.
Qed.

Lemma object_mode_rejects_non_objects_witness :
  fst (Decode (const_rt JSPrimitive) up_fn [1] 1 []) =
    (None, Some (ErrInvalidArgument "Decoder" "does not return an object")).
Proof.
  apply (object_mode_rejects_non_objects (const_rt JSPrimitive) up_fn [1] None 1 [] JSPrimitive);
    [discriminate | reflexivity | reflexivity].
Defined.

(** C6: a Validator returning boolean false gives (fields, false, nil).
    In every configuration, a Validate-stage failure (a runtime error, or a
    result that is not a boolean) carries a non-nil error, and a pipeline
    outcome (m, false, nil) arises only from a Validator that ran on the
    converted map m and returned false. *)
Theorem validator_false_is_rejection rt f payload port tr d tr1 c tr2
  (HD : Decode rt f payload port tr = ((d, None), tr1))
  (HC : Convert rt f d port tr1 = ((c, None), tr2))
  (HV : Validator f <> "")
  (Hfalse : rt "Validator" (validator_code f) (fields_env c port) timeOut = (JSBoolean false, None)) :
  fst (DecodeUplink rt f payload port tr) = (c, false, None) /\
  (forall rt' f' fields port' tr0 js e,
     Validator f' <> "" ->
     rt' "Validator" (validator_code f') (fields_env fields port') timeOut = (js, e) ->
     (e <> None \/ IsBoolean js = false) ->
     fst (fst (Validate rt' f' fields port' tr0)) = false /\
     snd (fst (Validate rt' f' fields port' tr0)) <> None) /\
  (forall rt' f' payload' port' tr0 m tr',
     DecodeUplink rt' f' payload' port' tr0 = ((m, false, None), tr') ->
     exists d' tr1' tr2',
       Decode rt' f' payload' port' tr0 = ((d', None), tr1') /\
       Convert rt' f' d' port' tr1' = ((m, None), tr2') /\
       Validator f' <> "" /\
       rt' "Validator" (validator_code f') (fields_env m port') timeOut = (JSBoolean false, None)).
Proof.
  split; [|split].
  - unfold DecodeUplink, bind, ret. rewrite HD, HC.
    unfold Validate, RunCode, bind, ret.
    apply String.eqb_neq in HV. rewrite HV, Hfalse. reflexivity.
  - intros rt' f' fields port' tr0 js e HV' Hrt Hfail.
    apply String.eqb_neq in HV'.
    unfold Validate, RunCode, bind, ret. rewrite HV', Hrt.
    destruct e as [e|]; simpl; [split; [reflexivity | discriminate]|].
    destruct Hfail as [Hfail|Hfail]; [contradiction|]. rewrite Hfail.
    simpl. split; [reflexivity | discriminate].
  - intros rt' f' payload' port' tr0 m tr' H.
    unfold DecodeUplink, bind, ret in H.
    destruct (Decode rt' f' payload' port' tr0) as [[d' [e1|]] tr1'] eqn:HD'; [discriminate H|].
    destruct (Convert rt' f' d' port' tr1') as [[c' [e2|]] tr2'] eqn:HC'; [discriminate H|].
    destruct (Validate rt' f' c' port' tr2') as [[v e3] tr3] eqn:HVc.
    inversion H; subst.
    exists d', tr1', tr2'. repeat split; try assumption.
    + revert HVc. unfold Validate, RunCode, bind, ret.
      destruct (String.eqb (Validator f') "") eqn:E; [discriminate|].
      apply String.eqb_neq in E. intros _. exact E.
    + revert HVc. unfold Validate, RunCode, bind, ret.
      destruct (String.eqb (Validator f') "") eqn:E; [discriminate|].
      destruct (rt' "Validator" (validator_code f') (fields_env m port') timeOut)
        as [value [e|]]; [discriminate|].
      destruct value as [x e | [] |]; simpl; intro Hv; try discriminate Hv; reflexivity.
Qed.

Lemma validator_false_is_rejection_witness :
  fst (DecodeUplink (const_rt (JSBoolean false)) bool_validator_fn [1] 1 []) = (None, false, None).
Proof.
  apply (validator_false_is_rejection (const_rt (JSBoolean false)) bool_validator_fn [1] 1 []
           None [] None []).
  - reflexivity.
  - reflexivity.
  - discriminate.
  - reflexivity.
Defined.

(** C7: the stages run in the order Decode, Convert, Validate (each at most
    once); a Decode error ends the pipeline with (nil, false, err) and no
    further call, and so does a Convert error. *)
Theorem DecodeUplink_order_short_circuit rt f payload port tr :
  (forall d err tr1,
     Decode rt f payload port tr = ((d, Some err), tr1) ->
     DecodeUplink rt f payload port tr = ((None, false, Some err), tr1)) /\
  (forall d tr1 c err tr2,
     Decode rt f payload port tr = ((d, None), tr1) ->
     Convert rt f d port tr1 = ((c, Some err), tr2) ->
     DecodeUplink rt f payload port tr = ((None, false, Some err), tr2)) /\
  (exists calls,
     snd (DecodeUplink rt f payload port tr) = app tr calls /\
     In (map inv_name calls)
       [[]; ["Decoder"]; ["Converter"]; ["Validator"];
        ["Decoder"; "Converter"]; ["Decoder"; "Validator"]; ["Converter"; "Validator"];
        ["Decoder"; "Converter"; "Validator"]]).
Proof.
  split; [|split].
  - intros d err tr1 HD. unfold DecodeUplink, bind, ret. rewrite HD. reflexivity.
  - intros d tr1 c err tr2 HD HC. unfold DecodeUplink, bind, ret. rewrite HD, HC. reflexivity.
  - unfold_M. split_M.
    all: try (exists []; split; [symmetry; apply app_nil_r | simpl; tauto]).
    all: eexists; split; [rewrite <- ?app_assoc; reflexivity | simpl; tauto].
Qed.

Lemma DecodeUplink_order_short_circuit_witness :
  DecodeUplink (const_rt JSPrimitive) up_fn [1] 1 [] =
    ((None, false, Some (ErrInvalidArgument "Decoder" "does not return an object")),
     snd (Decode (const_rt JSPrimitive) up_fn [1] 1 [])).
Proof.
  apply (proj1 (DecodeUplink_order_short_circuit (const_rt JSPrimitive) up_fn [1] 1 []) None).
  vm_compute. reflexivity.
Defined.

(** C8: every RunCode call of the four transforms, alone or in the two
    pipelines, passes the single timeout [timeOut], which is 100 ms. *)
Theorem RunCode_timeout_100ms rt uf df payload fields port :
  timeOut = 100 * Millisecond /\
  Forall (fun c => inv_timeout c = timeOut) (snd (Decode rt uf payload port [])) /\
  Forall (fun c => inv_timeout c = timeOut) (snd (Convert rt uf fields port [])) /\
  Forall (fun c => inv_timeout c = timeOut) (snd (Validate rt uf fields port [])) /\
  Forall (fun c => inv_timeout c = timeOut) (snd (Encode rt df fields port [])) /\
  Forall (fun c => inv_timeout c = timeOut) (snd (DecodeUplink rt uf payload port [])) /\
  Forall (fun c => inv_timeout c = timeOut) (snd (EncodeDownlink rt df fields port [])).
Proof.
  split; [reflexivity|].
  unfold_M. repeat split; split_M; repeat constructor.
Qed.

(** C4: with an empty Encoder, the downlink pipeline called with non-empty
    fields runs no script and returns (nil, false, the missing-Encoder error). *)
Theorem EncodeDownlink_missing_encoder rt f kv port tr
  (HE : Encoder f = "") (Hne : kv <> []) :
  EncodeDownlink rt f (Some kv) port tr = (Returned (None, false, Some ErrMissingEncoder), tr).
Proof.
  unfold EncodeDownlink, Encode, bind, ret. rewrite HE. reflexivity.
Qed.

Lemma EncodeDownlink_missing_encoder_witness :
  EncodeDownlink (const_rt JSPrimitive) (mkDownlink "") (Some sample_fields) 1 [] =
    (Returned (None, false, Some ErrMissingEncoder), []).
Proof.
  apply EncodeDownlink_missing_encoder; [reflexivity | discriminate].
Defined.

(** C9: with an empty Encoder, Encode returns the missing-Encoder error for
    every payload, nil or empty included, and runs no script. *)
Theorem Encode_missing_encoder_any_payload rt f payload port tr
  (HE : Encoder f = "") :
  Encode rt f payload port tr = (Returned (None, Some ErrMissingEncoder), tr).
Proof.
  unfold Encode, ret. rewrite HE. reflexivity.
Qed.

Lemma Encode_missing_encoder_any_payload_witness :
  Encode (const_rt JSPrimitive) (mkDownlink "") None 1 [] =
    (Returned (None, Some ErrMissingEncoder), []) /\
  Encode (const_rt JSPrimitive) (mkDownlink "") (Some []) 1 [] =
    (Returned (None, Some ErrMissingEncoder), []).
Proof.
  split; apply Encode_missing_encoder_any_payload; reflexivity.
Defined.

(** C10: whenever Encode, or the downlink pipeline, returns a non-nil error,
    the returned byte slice is nil (and the pipeline's ok flag is false). *)
Theorem Encode_error_no_bytes rt f payload port tr :
  (forall bytes err tr',
     Encode rt f payload port tr = (Returned (bytes, Some err), tr') -> bytes = None) /\
  (forall bytes ok err tr',
     EncodeDownlink rt f payload port tr = (Returned (bytes, ok, Some err), tr') ->
     bytes = None /\ ok = false).
Proof.
  split.
  - exact (Encode_error_nil rt f payload port tr).
  - intros bytes ok err tr'. unfold EncodeDownlink, bind, ret.
    destruct (Encode rt f payload port tr) as [[[encoded [e|]]|] tr1].
    + intro H. inversion H. auto.
    + discriminate.
    + discriminate.
Qed.

Lemma Encode_error_no_bytes_witness :
  Encode (const_rt (JSObject (VSlice [VInt 1; VFloat64 (f64 256 0)]) None)) enc_fn None 1 [] =
    (Returned (None, Some ErrOutOfRange),
     snd (Encode (const_rt (JSObject (VSlice [VInt 1; VFloat64 (f64 256 0)]) None)) enc_fn None 1 [])) /\
  (None : option (list Z)) = None.
Proof.
  assert (H : Encode (const_rt (JSObject (VSlice [VInt 1; VFloat64 (f64 256 0)]) None)) enc_fn None 1 [] =
    (Returned (None, Some ErrOutOfRange),
     snd (Encode (const_rt (JSObject (VSlice [VInt 1; VFloat64 (f64 256 0)]) None)) enc_fn None 1 [])))
    by (vm_compute; reflexivity).
  split; [exact H|].
  exact (proj1 (Encode_error_no_bytes _ enc_fn None 1 []) _ _ _ H).
Defined.

(** ** The byte-array contract of Encode *)

Example encode_first_failure :
  run_encoder [VFloat64 (f64 256 0); VFloat64 (f64 3 (-1))] = Returned (None, Some ErrOutOfRange).
Proof. vm_compute. reflexivity. Qed.

Example encode_go_uint : run_encoder [VUint 5] = Returned (None, Some ErrNotIntegerArray).
Proof. vm_compute. reflexivity. Qed.

(** Counterexample to C2: the float64 2^70 is a whole number outside
    [0,255], yet the Encoder output [[2^70]] is rejected with "should return
    an Array of integer numbers", not with the OutOfRange error: [int64(t)]
    cannot hold it, so [float64(n) != t]. *)
Lemma C2_large_whole_float_not_out_of_range :
  ~ (forall x v, valid_binary 53 1024 x = true -> float_int_value x = Some v ->
       (v < 0 \/ 255 < v) ->
       run_encoder [VFloat64 x] = Returned (None, Some ErrOutOfRange)).
Proof.
  intro H.
  assert (E : run_encoder [VFloat64 (f64 1 70)] = Returned (None, Some ErrOutOfRange)).
  { apply (H _ (2 ^ 70)); [vm_compute; reflexivity | vm_compute; reflexivity | right; lia]. }
  vm_compute in E. discriminate E.
Qed.

(** C2 (amended): when the Encoder returns an array whose elements are Go
    values of their types, none of type [uint], Encode checks the elements in
    order and the first failing one decides the error: a float that is not a
    whole number of the int64 range (fractional, NaN, infinite, or of
    magnitude at least 2^63 other than -2^63), or a non-numeric value, gives
    InvalidArgument "should return an Array of integer numbers"; an integer
    element, or a whole-number float of the int64 range, outside [0,255]
    gives the OutOfRange error. When every element is a whole number in
    [0,255], the result is the byte slice of the same length holding those
    numbers in order. *)
Theorem Encode_byte_coercion rt f payload port tr xs
  (HE : Encoder f <> "")
  (Hrt : rt "Encoder" (encoder_code f) (encode_env payload port) timeOut =
         (JSObject (VSlice xs) None, None))
  (Hwf : Forall wf_element xs)
  (Hnu : Forall (fun x => is_go_uint x = false) xs) :
  fst (Encode rt f payload port tr) = Returned (coerce_spec xs) /\
  (forall bs, coerce_spec xs = (Some bs, None) ->
     Forall2 (fun x b => whole_number x = Some b /\ 0 <= b <= 255) xs bs).
Proof.
  split; [|apply coerce_spec_bytes].
  unfold Encode, RunCode, bind, ret, IsObject, Export.
  apply String.eqb_neq in HE. rewrite HE, Hrt. simpl.
  rewrite (encode_loop_spec xs Hwf Hnu 0 _ (repeat_length 0 (List.length xs))).
  simpl. destruct (coerce_spec xs) as [[bs|] [e|]]; reflexivity.
Qed.

Lemma Encode_byte_coercion_witness :
  fst (Encode (const_rt (JSObject (VSlice [VFloat64 (f64 0 0); VUint64 255; VFloat32 (f32 3 (-1))]) None))
         enc_fn None 1 []) =
    Returned (coerce_spec [VFloat64 (f64 0 0); VUint64 255; VFloat32 (f32 3 (-1))]) /\
  coerce_spec [VFloat64 (f64 0 0); VUint64 255; VFloat32 (f32 3 (-1))] = (None, Some ErrNotIntegerArray).
Proof.
  split.
  - refine (proj1 (Encode_byte_coercion _ enc_fn None 1 [] _ _ _ _ _)).
    + discriminate.
    + reflexivity.
    + repeat constructor; simpl; try (vm_compute; reflexivity); lia.
    + repeat constructor.
  - vm_compute. reflexivity.
Defined.

(** ** Further properties of the handler functions *)

Lemma encode_loop_success xs :
  forall i res out, encode_loop i xs res = (Some out, None) ->
  List.length res = (i + List.length xs)%nat ->
  exists bs, out = app (firstn i res) bs /\
    Forall2 (fun x b => element_int64 x = inl b /\ 0 <= b <= 255) xs bs.
Proof.
  induction xs as [|x xs IH]; intros i res out H Hlen; simpl in H.
  - injection H as <-. exists []. simpl in Hlen.
    rewrite app_nil_r, firstn_all2 by lia. split; [reflexivity | constructor].
  - destruct (element_int64 x) as [n|e] eqn:Hx; [|discriminate H].
    destruct ((n <? 0) || (n >? 255)) eqn:Hr; [discriminate H|].
    assert (Hn : 0 <= n <= 255).
    { rewrite Z.gtb_ltb in Hr. apply orb_false_iff in Hr as [H1 H2].
      apply Z.ltb_ge in H1. apply Z.ltb_ge in H2. lia. }
    assert (Hb : byte_of_int64 n = n) by (apply Z.mod_small; lia).
    rewrite Hb in H. simpl in Hlen.
    destruct (IH _ _ _ H) as (bs & -> & Hf); [rewrite list_set_length; lia|].
    exists (n :: bs). rewrite firstn_list_set by lia. split.
    + rewrite <- app_assoc. reflexivity.
    + constructor; auto.
Qed.

Lemma encode_loop_no_error i xs res b :
  encode_loop i xs res = (b, None) -> exists bs, b = Some bs.
Proof.
  revert i res. induction xs as [|x xs IH]; intros i res H; simpl in H.
  - injection H as <-. eexists; reflexivity.
  - destruct (element_int64 x) as [n|e]; [|discriminate H].
    destruct ((n <? 0) || (n >? 255)); [discriminate H|].
    exact (IH _ _ H).
Qed.

(** X1: the uplink data flow. When the three scripts are set and each runs
    without error, the Decoder receives the payload bytes and the port, the
    Converter receives the decoded map, the Validator the converted map, and
    the pipeline returns the converted map with the Validator's boolean. The
    export errors of the Decoder and Converter results are ignored. Exactly
    these three scripts run, in this order. *)
Theorem DecodeUplink_dataflow rt f payload port tr d ed c ec b
  (HD : Decoder f <> "") (HC : Converter f <> "") (HV : Validator f <> "")
  (Hd : rt "Decoder" (decoder_code f) (payload_env payload port) timeOut =
        (JSObject (VMap d) ed, None))
  (Hc : rt "Converter" (converter_code f) (fields_env d port) timeOut =
        (JSObject (VMap c) ec, None))
  (Hb : rt "Validator" (validator_code f) (fields_env c port) timeOut = (JSBoolean b, None)) :
  DecodeUplink rt f payload port tr =
    ((c, b, None),
     app tr [mkInvocation "Decoder" (decoder_code f) (payload_env payload port) timeOut;
             mkInvocation "Converter" (converter_code f) (fields_env d port) timeOut;
             mkInvocation "Validator" (validator_code f) (fields_env c port) timeOut]).
Proof.
  apply String.eqb_neq in HD, HC, HV.
  unfold_M. rewrite HD. simpl. rewrite Hd. simpl. rewrite HC, Hc. simpl.
  rewrite HV, Hb. simpl. rewrite <- !app_assoc. reflexivity.
Qed.

Lemma DecodeUplink_dataflow_witness :
  DecodeUplink full_rt full_fn [1; 2] 3 [] =
  ((Some sample_fields, true, None),
   [mkInvocation "Decoder" (decoder_code full_fn) (payload_env [1; 2] 3) timeOut;
    mkInvocation "Converter" (converter_code full_fn) (fields_env (Some sample_fields) 3) timeOut;
    mkInvocation "Validator" (validator_code full_fn) (fields_env (Some sample_fields) 3) timeOut]).
Proof.
  exact (DecodeUplink_dataflow full_rt full_fn [1; 2] 3 [] (Some sample_fields) None
           (Some sample_fields) None true ltac:(discriminate) ltac:(discriminate)
           ltac:(discriminate) eq_refl eq_refl eq_refl).
Defined.

(** X2: when no Decoder is set, the stage after it receives a nil field map:
    if a Converter is set, the first script run is the Converter, called
    with a nil [fields]; if no Converter is set, the pipeline returns a nil
    field map, and a Validator, if set, is called with a nil [fields]. *)
Theorem DecodeUplink_no_decoder_nil_fields rt f payload port tr
  (HD : Decoder f = "") :
  (Converter f <> "" ->
   exists tr', snd (DecodeUplink rt f payload port tr) =
     app tr (mkInvocation "Converter" (converter_code f) (fields_env None port) timeOut :: tr')) /\
  (Converter f = "" ->
   fst (DecodeUplink rt f payload port tr) = (None, fst (fst (Validate rt f None port tr)),
                                              snd (fst (Validate rt f None port tr))) /\
   snd (DecodeUplink rt f payload port tr) = snd (Validate rt f None port tr)).
Proof.
  split; intro HC.
  - apply String.eqb_neq in HC. unfold_M. rewrite HD, HC. split_M;
      first [exists []; rewrite ?app_nil_r; reflexivity
            | eexists; rewrite <- app_assoc; reflexivity].
  - unfold DecodeUplink, Decode, Convert, bind, ret.
    rewrite HD, HC. simpl.
    destruct (Validate rt f None port tr) as [[v e] tr']. auto.
Qed.

Lemma DecodeUplink_no_decoder_nil_fields_witness :
  (exists tr', snd (DecodeUplink full_rt no_decoder_fn [7] 2 []) =
     app [] (mkInvocation "Converter" (converter_code no_decoder_fn) (fields_env None 2) timeOut :: tr')) /\
  fst (DecodeUplink full_rt bool_validator_fn [7] 2 []) =
    (None, fst (fst (Validate full_rt bool_validator_fn None 2 [])),
     snd (fst (Validate full_rt bool_validator_fn None 2 []))).
Proof.
  split.
  - exact (proj1 (DecodeUplink_no_decoder_nil_fields full_rt no_decoder_fn [7] 2 [] eq_refl)
             ltac:(discriminate)).
  - exact (proj1 (proj2 (DecodeUplink_no_decoder_nil_fields full_rt bool_validator_fn [7] 2 [] eq_refl)
             eq_refl)).
Defined.

(** X3: an error reported by the runtime is returned unchanged, whatever
    value came with it: the uplink pipeline returns it with a nil map and
    [false] when the Decoder fails, Convert returns it with a nil map,
    Validate with [false], and the downlink pipeline returns it with no
    bytes and [false]; in each case that single script is the only one run. *)
Theorem runtime_error_passthrough rt uf df payload fields kv port tr v e :
  (Decoder uf <> "" ->
   rt "Decoder" (decoder_code uf) (payload_env payload port) timeOut = (v, Some e) ->
   DecodeUplink rt uf payload port tr =
     ((None, false, Some e),
      app tr [mkInvocation "Decoder" (decoder_code uf) (payload_env payload port) timeOut])) /\
  (Converter uf <> "" ->
   rt "Converter" (converter_code uf) (fields_env fields port) timeOut = (v, Some e) ->
   fst (Convert rt uf fields port tr) = (None, Some e)) /\
  (Validator uf <> "" ->
   rt "Validator" (validator_code uf) (fields_env fields port) timeOut = (v, Some e) ->
   fst (Validate rt uf fields port tr) = (false, Some e)) /\
  (Encoder df <> "" ->
   rt "Encoder" (encoder_code df) (encode_env kv port) timeOut = (v, Some e) ->
   EncodeDownlink rt df kv port tr =
     (Returned (None, false, Some e),
      app tr [mkInvocation "Encoder" (encoder_code df) (encode_env kv port) timeOut])).
Proof.
  repeat split; intros Hs Hrt; apply String.eqb_neq in Hs; unfold_M;
    rewrite Hs; simpl; rewrite Hrt; reflexivity.
Qed.

Lemma runtime_error_passthrough_witness :
  DecodeUplink (error_rt sample_runtime_error) full_fn [1] 1 [] =
    ((None, false, Some sample_runtime_error),
     app [] [mkInvocation "Decoder" (decoder_code full_fn) (payload_env [1] 1) timeOut]) /\
  fst (Convert (error_rt sample_runtime_error) full_fn None 1 []) = (None, Some sample_runtime_error) /\
  fst (Validate (error_rt sample_runtime_error) full_fn None 1 []) = (false, Some sample_runtime_error) /\
  EncodeDownlink (error_rt sample_runtime_error) enc_fn None 1 [] =
    (Returned (None, false, Some sample_runtime_error),
     app [] [mkInvocation "Encoder" (encoder_code enc_fn) (encode_env None 1) timeOut]).
Proof.
  destruct (runtime_error_passthrough (error_rt sample_runtime_error) full_fn enc_fn [1] None None 1 []
              JSPrimitive sample_runtime_error) as (H1 & H2 & H3 & H4).
  split; [|split; [|split]].
  - apply H1; [discriminate | reflexivity].
  - apply H2; [discriminate | reflexivity].
  - apply H3; [discriminate | reflexivity].
  - apply H4; [discriminate | reflexivity].
Defined.

(** X4: Encode panics exactly when the Encoder is set and its script
    returns, without error, an object that exports to nil
    ([reflect.TypeOf(nil).Kind()]); in every other case it returns. *)
Theorem Encode_panics_iff rt f payload port tr :
  fst (Encode rt f payload port tr) = Panicked <->
  Encoder f <> "" /\
  rt "Encoder" (encoder_code f) (encode_env payload port) timeOut = (JSObject VNil None, None).
Proof.
  unfold Encode, RunCode, bind, ret.
  destruct (String.eqb (Encoder f) "") eqn:HE.
  - split; [discriminate|]. intros [H _]. apply String.eqb_eq in HE. contradiction.
  - apply String.eqb_neq in HE.
    destruct (rt "Encoder" (encoder_code f) (encode_env payload port) timeOut) as [v [e|]];
      simpl.
    + split; [discriminate|]. intros [_ H]. discriminate H.
    + destruct v as [x [e|]| |]; simpl;
        try (split; [discriminate|]; intros [_ H]; discriminate H).
      destruct x; simpl; try (split; [discriminate|]; intros [_ H]; discriminate H).
      tauto.
Qed.

(** X5: an Encoder returning an empty array gives an empty, non-nil byte
    slice, and the downlink pipeline reports success. *)
Theorem EncodeDownlink_empty_array rt f payload port tr
  (HE : Encoder f <> "")
  (Hrt : rt "Encoder" (encoder_code f) (encode_env payload port) timeOut =
         (JSObject (VSlice []) None, None)) :
  fst (Encode rt f payload port tr) = Returned (Some [], None) /\
  fst (EncodeDownlink rt f payload port tr) = Returned (Some [], true, None).
Proof.
  apply String.eqb_neq in HE. unfold_M. rewrite HE. simpl. rewrite Hrt. simpl. auto.
Qed.

Lemma EncodeDownlink_empty_array_witness :
  fst (Encode (const_rt (JSObject (VSlice []) None)) enc_fn None 1 []) = Returned (Some [], None) /\
  fst (EncodeDownlink (const_rt (JSObject (VSlice []) None)) enc_fn None 1 []) =
    Returned (Some [], true, None).
Proof.
  exact (EncodeDownlink_empty_array _ enc_fn None 1 [] ltac:(discriminate) eq_refl).
Defined.

(** X6: the downlink pipeline's [ok] is true exactly when it returns no
    error; then the byte slice is non-nil, otherwise it is nil. Encode
    never returns a nil slice together with a nil error. *)
Theorem EncodeDownlink_ok_iff_no_error rt f payload port tr bytes ok err
  (H : fst (EncodeDownlink rt f payload port tr) = Returned (bytes, ok, err)) :
  (ok = true <-> err = None) /\
  (ok = true -> exists bs, bytes = Some bs) /\
  (ok = false -> bytes = None).
Proof.
  unfold EncodeDownlink, bind, ret in H.
  destruct (Encode rt f payload port tr) as [r tr'] eqn:Henc. simpl in H.
  destruct r as [[b [e|]]|]; simpl in H; [| |discriminate H];
    injection H as <- <- <-.
  - repeat split; try discriminate.
  - assert (Hb : exists bs, b = Some bs).
    { revert Henc. unfold Encode, RunCode, bind, ret.
      destruct (String.eqb (Encoder f) ""); [congruence|].
      destruct (rt _ _ _ _) as [value [e|]]; [congruence|].
      destruct (IsObject value); simpl; [|congruence].
      destruct (Export value) as [v [e|]]; [congruence|].
      destruct v; try congruence.
      intro Henc. injection Henc as Henc _.
      exact (encode_loop_no_error _ _ _ _ Henc). }
    repeat split; auto; discriminate.
Qed.

Lemma EncodeDownlink_ok_iff_no_error_witness :
  ((true = true <-> (None : option error) = None) /\
   (true = true -> exists bs, Some [0; 255] = Some bs) /\
   (true = false -> Some [0; 255] = None)).
Proof.
  exact (EncodeDownlink_ok_iff_no_error
           (const_rt (JSObject (VSlice [VFloat64 (f64 0 0); VFloat64 (f64 255 0)]) None))
           enc_fn None 1 [] (Some [0; 255]) true None ltac:(vm_compute; reflexivity)).
Defined.

(** X7: the Decode and Convert stages return a nil map whenever they return
    an error, and Validate returns [false] whenever it returns an error. *)
Theorem stage_error_results rt f payload fields port tr m b e :
  (fst (Decode rt f payload port tr) = (m, Some e) -> m = None) /\
  (fst (Convert rt f fields port tr) = (m, Some e) -> m = None) /\
  (fst (Validate rt f fields port tr) = (b, Some e) -> b = false).
Proof.
  split; [|split].
  - unfold Decode, RunCode, bind, ret.
    destruct (String.eqb (Decoder f) ""); [simpl; congruence|].
    destruct (rt _ _ _ _) as [value [e'|]]; simpl; [congruence|].
    destruct (IsObject value); simpl; [|congruence].
    destruct (Export value) as [[] ?]; simpl; congruence.
  - unfold Convert, RunCode, bind, ret.
    destruct (String.eqb (Converter f) ""); [simpl; congruence|].
    destruct (rt _ _ _ _) as [value [e'|]]; simpl; [congruence|].
    destruct (IsObject value); simpl; [|congruence].
    destruct (Export value) as [[] ?]; simpl; congruence.
  - intro H. destruct (Validate rt f fields port tr) as [[b' e'] tr'] eqn:Hv.
    simpl in H. injection H as -> ->. exact (Validate_error_false _ _ _ _ _ _ _ _ Hv).
Qed.

Lemma stage_error_results_witness :
  fst (Decode (const_rt JSPrimitive) full_fn [1] 1 []) =
    (None, Some (ErrInvalidArgument "Decoder" "does not return an object")) /\
  (None : gomap) = None.
Proof.
  assert (H : fst (Decode (const_rt JSPrimitive) full_fn [1] 1 []) =
    (None, Some (ErrInvalidArgument "Decoder" "does not return an object")))
    by (vm_compute; reflexivity).
  split; [exact H|].
  exact (proj1 (stage_error_results (const_rt JSPrimitive) full_fn [1] None 1 []
                  None false _) H).
Defined.

(** X8: when Encode succeeds on an array, each byte is the int64 value the
    type switch gives its element, which already lies in [0,255]: the
    conversion [byte(n)] never wraps a value. *)
Theorem Encode_bytes_are_element_values rt f payload port tr xs bs
  (HE : Encoder f <> "")
  (Hrt : rt "Encoder" (encoder_code f) (encode_env payload port) timeOut =
         (JSObject (VSlice xs) None, None))
  (Hok : fst (Encode rt f payload port tr) = Returned (Some bs, None)) :
  Forall2 (fun x b => element_int64 x = inl b /\ 0 <= b <= 255) xs bs.
Proof.
  apply String.eqb_neq in HE. revert Hok. unfold_M. rewrite HE. simpl. rewrite Hrt. simpl.
  intro H. injection H as H.
  destruct (encode_loop_success _ _ _ _ H) as (bs' & -> & Hf);
    [rewrite repeat_length; reflexivity|].
  exact Hf.
Qed.

Lemma Encode_bytes_are_element_values_witness :
  Forall2 (fun x b => element_int64 x = inl b /\ 0 <= b <= 255)
    [VUint64 200; VInt8 0; VFloat64 (f64 255 0)] [200; 0; 255].
Proof.
  exact (Encode_bytes_are_element_values
           (const_rt (JSObject (VSlice [VUint64 200; VInt8 0; VFloat64 (f64 255 0)]) None))
           enc_fn None 1 [] _ _ ltac:(discriminate) eq_refl ltac:(vm_compute; reflexivity)).
Defined.

(** X9: an Encoder array that holds an element the type switch has no case
    for (a Go [uint], a string, a boolean, nil, a nested array or a map)
    never encodes: Encode returns an error for it, whatever its position. *)
Theorem Encode_unhandled_type_never_encodes rt f payload port tr xs x
  (Hrt : rt "Encoder" (encoder_code f) (encode_env payload port) timeOut =
         (JSObject (VSlice xs) None, None))
  (Hin : In x xs)
  (Hx : match x with
        | VUint _ | VString _ | VBool _ | VNil | VSlice _ | VMap _ => True
        | _ => False
        end) :
  exists e, fst (Encode rt f payload port tr) = Returned (None, Some e).
Proof.
  unfold Encode, RunCode, bind, ret.
  destruct (String.eqb (Encoder f) ""); [eexists; reflexivity|].
  rewrite Hrt. simpl.
  destruct (encode_loop 0 xs (repeat 0 (List.length xs))) as [b [e|]] eqn:H.
  - rewrite (encode_loop_error_nil _ _ _ _ _ H). eexists; reflexivity.
  - exfalso. destruct (encode_loop_no_error _ _ _ _ H) as [bs ->].
    destruct (encode_loop_success _ _ _ _ H) as (bs' & _ & Hf);
      [rewrite repeat_length; reflexivity|].
    assert (Hxb : exists b, element_int64 x = inl b).
    { clear H Hrt Hx. induction Hf as [|y b ys bs0 [Hyb _] _ IH]; [destruct Hin|].
      destruct Hin as [<-|Hin]; [exists b; exact Hyb | exact (IH Hin)]. }
    destruct Hxb as [b Hxb].
    destruct x; simpl in Hx, Hxb; try contradiction; discriminate Hxb.
Qed.

Lemma Encode_unhandled_type_never_encodes_witness :
  exists e, fst (Encode (const_rt (JSObject (VSlice [VInt 1; VUint 5]) None)) enc_fn None 1 []) =
              Returned (None, Some e).
Proof.
  exact (Encode_unhandled_type_never_encodes _ enc_fn None 1 [] [VInt 1; VUint 5] (VUint 5)
           eq_refl ltac:(simpl; auto) I).
Defined.
